(** * localcert: issuance state machine and provisioning wire client

    A shallow embedding of [src/src/states.rs], [src/src/wire/client.rs],
    [src/src/wire/domain.rs], [src/src/wire/provision.rs] and
    [src/src/error.rs].

    The certificate-authority engine (the [acme] crate), the HTTP transport
    and the URL library are external collaborators.  They are represented by
    a [World]: the answers the authority and the provisioning server give,
    consumed in order, and a log of the calls that have an effect outside the
    process.  Asynchronous calls are sequential state passing over the world.
    A Rust panic ([unreachable!], [unwrap] on [Err]) is the outcome [Panic];
    a wait that the world never ends is the outcome [Hang]. *)

From Stdlib Require Import List String Ascii Bool ZArith Lia.
Import ListNotations.
Open Scope string_scope.

(* ------------------------------------------------------------------ *)
(** ** Statuses of the authority's resources (acme::wire) *)

Inductive OrderStatus := OPending | OReady | OProcessing | OValid | OInvalid.

Definition OrderStatus_eqb (a b : OrderStatus) : bool :=
  match a, b with
  | OPending, OPending | OReady, OReady | OProcessing, OProcessing
  | OValid, OValid | OInvalid, OInvalid => true
  | _, _ => false
  end.

(** [{:?}] formatting of an [OrderStatus]. *)
Definition OrderStatus_debug (s : OrderStatus) : string :=
  match s with
  | OPending => "Pending" | OReady => "Ready" | OProcessing => "Processing"
  | OValid => "Valid" | OInvalid => "Invalid"
  end.

Inductive AuthorizationStatus :=
  APending | AValid | AInvalid | ADeactivated | AExpired | ARevoked.

Inductive ChallengeStatus := CPending | CProcessing | CValid | CInvalid.

Definition CHALLENGE_TYPE_DNS_01 : string := "dns-01".

Record Challenge := mkChallenge {
  challenge_type : string;
  challenge_url : string;
  challenge_status : ChallengeStatus;
}.

Record Authorization := mkAuthorization {
  authz_url : string;              (* [authorization.url()] *)
  authz_status : AuthorizationStatus;
  authz_challenges : list Challenge;
}.

Record Order := mkOrder {
  order_url : string;
  order_status : OrderStatus;
}.

(** [Order::state_result]: the sub-state of the order, by its status. *)
Inductive OrderState := SPending | SReady | SProcessing | SValid | SInvalid.

Definition order_state (o : Order) : OrderState :=
  match order_status o with
  | OPending => SPending | OReady => SReady | OProcessing => SProcessing
  | OValid => SValid | OInvalid => SInvalid
  end.

(** [Authorization::find_challenge_type]: the first challenge of the type. *)
Definition find_challenge_type (a : Authorization) (ty : string) : option Challenge :=
  find (fun c => String.eqb (challenge_type c) ty) (authz_challenges a).

Record Account := mkAccount {
  account_url : string;            (* key identifier of the account *)
  account_public_jwk : string;     (* [account.key().public_jwk()] *)
  account_new_account_url : string (* [account.client().directory().new_account] *)
}.

(* ------------------------------------------------------------------ *)
(** ** Errors (error.rs and acme::AcmeError) *)

Definition BAD_NONCE_TYPE : string := "urn:ietf:params:acme:error:badNonce".

Record Problem := mkProblem {
  problem_type : string;
  problem_detail : string;
}.

(** [Problem::has_type(AcmeProblemType::BadNonce)] *)
Definition has_type_bad_nonce (p : Problem) : bool :=
  String.eqb (problem_type p) BAD_NONCE_TYPE.

Inductive AcmeError :=
  | AcmeProblem (p : Problem)
  | AcmeOther (msg : string).

Inductive LocalcertError :=
  | LAcmeError (e : AcmeError)
  | AcmeFeatureMissing (what : string)
  | HttpError (status : Z) (body : string)
  | InvalidBaseUrl (msg : string)
  | JsonError (msg : string)
  | StateError (msg : string).

(** [LocalcertError::unexpected_status] *)
Definition unexpected_status (resource_type : string) (status : OrderStatus)
  : LocalcertError :=
  StateError ("unexpected " ++ resource_type ++ " status " ++ OrderStatus_debug status).

(* ------------------------------------------------------------------ *)
(** ** Outcomes and the world *)

Inductive outcome (A : Type) :=
  | Done (a : A)
  | Fail (e : LocalcertError)
  | Panic
  | Hang.
Arguments Done {A} a.
Arguments Fail {A} e.
Arguments Panic {A}.
Arguments Hang {A}.

(** Rust's [Result]. *)
Inductive Result (A E : Type) := Ok (a : A) | Err (e : E).
Arguments Ok {A E} a.
Arguments Err {A E} e.

(* ------------------------------------------------------------------ *)
(** ** URLs (the parts of the url crate the client uses) *)

(** A parsed URL.  For a URL that can be a base, its path is the list of
    its segments, none of which contains a ['/']. *)
Record Url := mkUrl {
  url_scheme : string;
  url_host : option string;
  url_cannot_be_a_base : bool;
  url_segments : list string;
}.

(** [Url::path()] of a URL that can be a base. *)
Definition url_path (u : Url) : string :=
  match url_segments u with
  | [] => ""
  | segs => "/" ++ String.concat "/" segs
  end.

Definition set_segments (u : Url) (segs : list string) : Url :=
  mkUrl (url_scheme u) (url_host u) (url_cannot_be_a_base u) segs.

(** [Url::path_segments_mut()]: refused for a cannot-be-a-base URL. *)
Definition path_segments_mut (u : Url) : option (list string) :=
  if url_cannot_be_a_base u then None else Some (url_segments u).

(** [PathSegmentsMut::pop_if_empty]: when the path is longer than ["/"]
    and ends in ['/'], that ['/'] is dropped, i.e. the last, empty,
    segment; the empty path and the root path ["/"] are left alone. *)
Definition pop_if_empty (segs : list string) : list string :=
  match segs with
  | [] | [_] => segs
  | _ => if String.eqb (last segs "") "" then removelast segs else segs
  end.

(** [PathSegmentsMut::push], through [extend]: the segments ["."] and
    [".."] are skipped; a ['/'] is written before the segment unless the
    path is exactly ["/"], so on the root path the segment fills its lone
    empty segment.  The segment is taken already percent-encoded (the
    client only pushes the empty segment). *)
Definition push (seg : string) (segs : list string) : list string :=
  if orb (String.eqb seg ".") (String.eqb seg "..") then segs
  else match segs with
       | [s] => if String.eqb s "" then [seg] else segs ++ [seg]
       | _ => segs ++ [seg]
       end.

(** [Url::join(path)] for a relative reference made of one path segment
    (no ['/'], ['?'], ['#'] or scheme), as the endpoint names are: the last
    segment of the base is replaced by it (RFC 3986 merge).  A
    cannot-be-a-base URL refuses the join.  Other references (dot
    segments, network-path or absolute ones) resolve differently and are
    not modelled: the client only joins "domain" and "provision". *)
Definition join (u : Url) (seg : string) : option Url :=
  if url_cannot_be_a_base u then None
  else Some (set_segments u (removelast (url_segments u) ++ [seg])).

(* ------------------------------------------------------------------ *)
(** ** Wire data model (wire/domain.rs, wire/provision.rs) *)

Inductive Auth := Jwk (jwk : string) | Kid (kid : string).

Inductive Payload :=
  | NewAccountResource (only_return_existing : bool)
  | NO_PAYLOAD.

(** The signed envelope built by [Client::build_request_body]: the target
    URL, the authentication, a fresh nonce and the payload. *)
Record SignedRequest := mkSignedRequest {
  sr_url : string;
  sr_auth : Auth;
  sr_nonce : nat;
  sr_payload : Payload;
}.

Record DomainRequest := mkDomainRequest {
  signed_account_request : SignedRequest;
}.

Record DomainResult := mkDomainResult {
  localcert_domain : string;
}.

Record ProvisionRequest := mkProvisionRequest {
  account_public_key : string;
  signed_authorization_request : SignedRequest;
}.

Record ProvisionResult := mkProvisionResult {
  authorization_url : string;
  provisioned_challenge_url : string;
}.

(** A JSON request body, as [Body::from_json] serializes it. *)
Inductive RequestBody :=
  | BDomainRequest (r : DomainRequest)
  | BProvisionRequest (r : ProvisionRequest).

Class Serialize (T : Type) := to_body : T -> RequestBody.
#[global] Instance Serialize_DomainRequest : Serialize DomainRequest := BDomainRequest.
#[global] Instance Serialize_ProvisionRequest : Serialize ProvisionRequest :=
  BProvisionRequest.

(** A JSON response body, as the provisioning server sends it. *)
Inductive ResponseBody :=
  | RDomainResult (r : DomainResult)
  | RProvisionResult (r : ProvisionResult)
  | RProblem (p : Problem)
  | RRaw (text : string).

Class DeserializeOwned (T : Type) := from_body : ResponseBody -> option T.
#[global] Instance Deserialize_DomainResult : DeserializeOwned DomainResult :=
  fun b => match b with RDomainResult r => Some r | _ => None end.
#[global] Instance Deserialize_ProvisionResult : DeserializeOwned ProvisionResult :=
  fun b => match b with RProvisionResult r => Some r | _ => None end.
#[global] Instance Deserialize_Problem : DeserializeOwned Problem :=
  fun b => match b with RProblem p => Some p | _ => None end.

Record HttpResponse := mkHttpResponse {
  resp_status : Z;
  resp_body : ResponseBody;
}.

(** What [HttpClient::send] returns for one request. *)
Inductive HttpReply :=
  | Reply (r : HttpResponse)
  | SendError (status : Z) (msg : string).

Definition is_success (status : Z) : bool := (200 <=? status)%Z && (status <? 300)%Z.

(* ------------------------------------------------------------------ *)
(** ** The world: the authority, the provisioning server and the log *)

Definition GeneratedKey := string.

(** The calls with an effect outside the process, in the order made. *)
Inductive Event :=
  | EPost (url : Url) (body : RequestBody)
  | ENewDnsOrder (account : Account) (domain : string)
  | EGetOrder (order_url : string)
  | EGetAuthorization (order_url : string)
  | ERespond (challenge_url : string)
  | EFinalizeCsr (order_url : string) (csr_der : list Byte.byte)
  | EFinalizeGeneratedKey (order_url : string)
  | EGetCertificateChain (order_url : string).

Record World := mkWorld {
  w_log : list Event;
  w_nonce : nat;                          (* next nonce the authority hands out *)
  w_http : list HttpReply;                (* replies to successive POSTs *)
  w_new_dns_order : string -> Result Order AcmeError;
  w_get_order : string -> Result Order AcmeError;
  w_get_authorization : Order -> Result Authorization AcmeError;
  w_polls : list OrderStatus;             (* statuses of successive re-queries *)
  w_respond : Result unit AcmeError;
  w_finalize : Order -> list Byte.byte -> Result Order AcmeError;
  w_generated_key : Order -> Result (GeneratedKey * Order) AcmeError;
  w_certificate_chain : Order -> Result string AcmeError;
}.

Definition log_event (e : Event) (w : World) : World :=
  {| w_log := w_log w ++ [e]; w_nonce := w_nonce w; w_http := w_http w;
     w_new_dns_order := w_new_dns_order w; w_get_order := w_get_order w;
     w_get_authorization := w_get_authorization w; w_polls := w_polls w;
     w_respond := w_respond w; w_finalize := w_finalize w;
     w_generated_key := w_generated_key w;
     w_certificate_chain := w_certificate_chain w |}.

Definition set_nonce (n : nat) (w : World) : World :=
  {| w_log := w_log w; w_nonce := n; w_http := w_http w;
     w_new_dns_order := w_new_dns_order w; w_get_order := w_get_order w;
     w_get_authorization := w_get_authorization w; w_polls := w_polls w;
     w_respond := w_respond w; w_finalize := w_finalize w;
     w_generated_key := w_generated_key w;
     w_certificate_chain := w_certificate_chain w |}.

Definition set_http (h : list HttpReply) (w : World) : World :=
  {| w_log := w_log w; w_nonce := w_nonce w; w_http := h;
     w_new_dns_order := w_new_dns_order w; w_get_order := w_get_order w;
     w_get_authorization := w_get_authorization w; w_polls := w_polls w;
     w_respond := w_respond w; w_finalize := w_finalize w;
     w_generated_key := w_generated_key w;
     w_certificate_chain := w_certificate_chain w |}.

Definition set_polls (p : list OrderStatus) (w : World) : World :=
  {| w_log := w_log w; w_nonce := w_nonce w; w_http := w_http w;
     w_new_dns_order := w_new_dns_order w; w_get_order := w_get_order w;
     w_get_authorization := w_get_authorization w; w_polls := p;
     w_respond := w_respond w; w_finalize := w_finalize w;
     w_generated_key := w_generated_key w;
     w_certificate_chain := w_certificate_chain w |}.

(** An asynchronous computation: it runs against the world and ends in an
    outcome. *)
Definition M (A : Type) : Type := World -> outcome A * World.

Definition ret {A} (a : A) : M A := fun w => (Done a, w).

Definition throw {A} (e : LocalcertError) : M A := fun w => (Fail e, w).

Definition panic {A} : M A := fun w => (Panic, w).

(** Sequencing; a failure is propagated as the [?] operator does. *)
Definition bind {A B} (m : M A) (k : A -> M B) : M B :=
  fun w =>
    match m w with
    | (Done a, w') => k a w'
    | (Fail e, w') => (Fail e, w')
    | (Panic, w') => (Panic, w')
    | (Hang, w') => (Hang, w')
    end.

Notation "x <- m ;; k" := (bind m (fun x => k))
  (at level 61, m at next level, right associativity).
Notation "m ;;; k" := (bind m (fun _ => k))
  (at level 61, right associativity).

(** [?] on a [Result<_, AcmeError>]: the error becomes
    [LocalcertError::AcmeError]. *)
Definition acme {A} (r : Result A AcmeError) : M A :=
  match r with
  | Ok a => ret a
  | Err e => throw (LAcmeError e)
  end.

Definition emit (e : Event) : M unit := fun w => (Done tt, log_event e w).

(* ------------------------------------------------------------------ *)
(** ** The provisioning wire client (wire/client.rs) *)

Record LocalcertClient := mkLocalcertClient {
  base_url : Url;
}.

(** [LocalcertClient::new]; [conv] is the outcome of [base_url.try_into()]
    with the conversion error already formatted by [to_string]. *)
Definition new_client (conv : Result Url string) : Result LocalcertClient LocalcertError :=
  match conv with
  | Err msg => Err (InvalidBaseUrl msg)
  | Ok url =>
      match path_segments_mut url with
      | None => Err (InvalidBaseUrl "cannot be a base URL")
      | Some segs => Ok (mkLocalcertClient (set_segments url (push "" (pop_if_empty segs))))
      end
  end.

(** [account.client().build_request_body(key, url, auth, payload)]: signs
    with a fresh nonce. *)
Definition build_request_body (url : string) (auth : Auth) (payload : Payload)
  : M SignedRequest :=
  fun w => (Done (mkSignedRequest url auth (w_nonce w) payload), set_nonce (S (w_nonce w)) w).

(** What [localcert_request] makes of the reply to its POST.  When a 2xx
    body does not decode, [resp.body_json()] fails with an http_types error
    of status 422 (UnprocessableEntity) carrying serde_json's message (a
    fixed text here), and [?] turns it into [HttpError]. *)
Definition handle_reply {Res} `{DeserializeOwned Res} (r : HttpReply) : outcome Res :=
  match r with
  | SendError status msg => Fail (HttpError status msg)
  | Reply resp =>
      if negb (is_success (resp_status resp)) then
        match (from_body (resp_body resp) : option Problem) with
        | Some problem => Fail (LAcmeError (AcmeProblem problem))
        | None => Fail (HttpError (resp_status resp) "")
        end
      else
        match (from_body (resp_body resp) : option Res) with
        | Some res => Done res
        | None => Fail (HttpError 422 "invalid response body")
        end
  end.

(** [LocalcertClient::localcert_request] *)
Definition localcert_request {Req Res} `{Serialize Req} `{DeserializeOwned Res}
  (c : LocalcertClient) (path : string) (body : Req) : M Res :=
  match join (base_url c) path with
  | None => panic                                 (* [.unwrap()] *)
  | Some url =>
      emit (EPost url (to_body body));;;
      fun w =>
        match w_http w with
        | [] => (Hang, w)
        | r :: rest => (handle_reply r, set_http rest w)
        end
  end.

(** [is_bad_nonce_error] *)
Definition is_bad_nonce_error {T} (res : outcome T) : bool :=
  match res with
  | Fail (LAcmeError (AcmeProblem problem)) => has_type_bad_nonce problem
  | _ => false
  end.

(** [LocalcertClient::get_domain_once] *)
Definition get_domain_once (c : LocalcertClient) (account : Account) : M DomainResult :=
  signed_account_request <-
    build_request_body (account_new_account_url account)
      (Jwk (account_public_jwk account)) (NewAccountResource true);;
  localcert_request c "domain" (mkDomainRequest signed_account_request).

(** [LocalcertClient::get_domain]: one retry after a bad nonce. *)
Definition get_domain (c : LocalcertClient) (account : Account) : M DomainResult :=
  fun w =>
    let '(res, w1) := get_domain_once c account w in
    if is_bad_nonce_error res then get_domain_once c account w1 else (res, w1).

(** [LocalcertClient::provision_domain_once] *)
Definition provision_domain_once (c : LocalcertClient) (account : Account)
  (authorization_url : string) : M ProvisionResult :=
  signed_authorization_request <-
    build_request_body authorization_url (Kid (account_url account)) NO_PAYLOAD;;
  localcert_request c "provision"
    (mkProvisionRequest (account_public_jwk account) signed_authorization_request).

(** [LocalcertClient::provision_domain]: one retry after a bad nonce. *)
Definition provision_domain (c : LocalcertClient) (account : Account)
  (authorization_url : string) : M ProvisionResult :=
  fun w =>
    let '(res, w1) := provision_domain_once c account authorization_url w in
    if is_bad_nonce_error res then provision_domain_once c account authorization_url w1
    else (res, w1).

(* ------------------------------------------------------------------ *)
(** ** The certificate-authority engine (acme::api), as the world answers *)

Definition ask {A} (f : World -> M A) : M A := fun w => f w w.

(** [Account::new_dns_order] *)
Definition new_dns_order (account : Account) (domain : string) : M Order :=
  emit (ENewDnsOrder account domain);;;
  ask (fun w => acme (w_new_dns_order w domain)).

(** [Account::get_order] *)
Definition get_order (url : string) : M Order :=
  emit (EGetOrder url);;; ask (fun w => acme (w_get_order w url)).

(** [PendingOrder::get_only_authorization] *)
Definition get_only_authorization (o : Order) : M Authorization :=
  emit (EGetAuthorization (order_url o));;; ask (fun w => acme (w_get_authorization w o)).

(** [PendingChallenge::respond] *)
Definition respond (c : Challenge) : M unit :=
  emit (ERespond (challenge_url c));;; ask (fun w => acme (w_respond w)).

(** [ReadyOrder::finalize]: the order is refreshed from the response. *)
Definition finalize (o : Order) (csr_der : list Byte.byte) : M Order :=
  emit (EFinalizeCsr (order_url o) csr_der);;; ask (fun w => acme (w_finalize w o csr_der)).

(** [ReadyOrder::finalize_with_generated_key] *)
Definition finalize_with_generated_key (o : Order) : M (GeneratedKey * Order) :=
  emit (EFinalizeGeneratedKey (order_url o));;; ask (fun w => acme (w_generated_key w o)).

(** [ValidOrder::get_certificate_chain] *)
Definition get_certificate_chain (o : Order) : M string :=
  emit (EGetCertificateChain (order_url o));;; ask (fun w => acme (w_certificate_chain w o)).

(** The re-queries of [Order::status_changed]: the first reported status
    that differs from [cur], with the re-queries still to come. *)
Fixpoint await_change (cur : OrderStatus) (polls : list OrderStatus)
  : option (OrderStatus * list OrderStatus) :=
  match polls with
  | [] => None
  | p :: ps => if OrderStatus_eqb p cur then await_change cur ps else Some (p, ps)
  end.

(** [Order::status_changed]: re-query until the status differs; with no
    deadline, an authority that never changes it leaves the call waiting. *)
Definition status_changed (o : Order) : M Order :=
  fun w =>
    match await_change (order_status o) (w_polls w) with
    | Some (s, rest) => (Done (mkOrder (order_url o) s), set_polls rest w)
    | None => (Hang, set_polls [] w)
    end.

(* ------------------------------------------------------------------ *)
(** ** The issuance state machine (states.rs) *)

Record State := mkState {
  client : LocalcertClient;
  account : Account;
  order : Order;
  acme_polling_interval : nat;
}.

Definition set_order (o : Order) (s : State) : State :=
  mkState (client s) (account s) o (acme_polling_interval s).

Record RegisteredState := mkRegisteredState {
  rs_client : LocalcertClient;
  rs_account : Account;
  rs_acme_polling_interval : nat;
}.

Inductive OrderedState := OrderedState_ (s : State).
Inductive AuthorizedState := AuthorizedState_ (s : State).
Inductive FinalizedState := FinalizedState_ (s : State).

Inductive ResumeOrderState :=
  | Ordered (o : OrderedState)
  | Authorized (a : AuthorizedState)
  | Finalized (f : FinalizedState).

(** A method taking [&mut self]: the value comes back to the caller
    whatever the outcome. *)
Definition MutM (S A : Type) : Type := S -> World -> outcome A * S * World.

Definition omap {A B} (f : A -> B) (o : outcome A) : outcome B :=
  match o with
  | Done a => Done (f a)
  | Fail e => Fail e
  | Panic => Panic
  | Hang => Hang
  end.

(** A [&mut self] method called on a value the caller owns; on an early
    return the caller drops it. *)
Definition run_mut {S A} (m : MutM S A) (s : S) : M (A * S) :=
  fun w => let '(r, s', w') := m s w in (omap (fun a => (a, s')) r, w').

(** [State::order_status_changed_from] *)
Definition State_order_status_changed_from (status : OrderStatus)
  : MutM State OrderStatus :=
  fun st w =>
    if OrderStatus_eqb (order_status (order st)) status then
      match status_changed (order st) w with
      | (Done o', w1) =>
          let st' := set_order o' st in (Done (order_status (order st')), st', w1)
      | (r, w1) => (omap order_status r, st, w1)
      end
    else (Done (order_status (order st)), st, w).

(** [RegisteredState::with_order] *)
Definition RegisteredState_with_order (r : RegisteredState) (acme_order : Order)
  : OrderedState :=
  OrderedState_ (mkState (rs_client r) (rs_account r) acme_order (rs_acme_polling_interval r)).

(** [RegisteredState::new_order].  states.rs reads the claimed domain as
    [domain_result.domain]; it is the one field of [DomainResult], named
    [localcert_domain] in wire/domain.rs. *)
Definition RegisteredState_new_order (r : RegisteredState) : M OrderedState :=
  domain_result <- get_domain (rs_client r) (rs_account r);;
  order <- new_dns_order (rs_account r) (localcert_domain domain_result);;
  ret (RegisteredState_with_order r order).

(** [RegisteredState::resume_order] *)
Definition RegisteredState_resume_order (r : RegisteredState) (order_url : string)
  : M ResumeOrderState :=
  order <- get_order order_url;;
  let state := mkState (rs_client r) (rs_account r) order (rs_acme_polling_interval r) in
  match order_status order with
  | OPending => ret (Ordered (OrderedState_ state))
  | OReady => ret (Authorized (AuthorizedState_ state))
  | OProcessing | OValid => ret (Finalized (FinalizedState_ state))
  | _ => panic                                     (* [unreachable!()] *)
  end.

(** The free function [authorize] of states.rs. *)
Definition authorize (c : LocalcertClient) (account : Account)
  (authorization : Authorization) : M unit :=
  match authz_status authorization with
  | AValid => ret tt
  | APending =>
      match find_challenge_type authorization CHALLENGE_TYPE_DNS_01 with
      | None => throw (AcmeFeatureMissing "no dns-01 challenge")
      | Some challenge =>
          provision_result <- provision_domain c account (authz_url authorization);;
          if negb (String.eqb (provisioned_challenge_url provision_result)
                     (challenge_url challenge))
          then throw (StateError "provisioned challenge doesn't match DNS-01 challenge")
          else
            match challenge_status challenge with
            | CPending => respond challenge
            | _ => ret tt
            end
      end
  | _ => panic                                     (* [unreachable!()] *)
  end.

(** [OrderedState::authorize] *)
Definition OrderedState_authorize (o : OrderedState) : M AuthorizedState :=
  match o with
  | OrderedState_ st =>
      match order_state (order st) with
      | SPending =>
          authorization <- get_only_authorization (order st);;
          authorize (client st) (account st) authorization;;;
          r <- run_mut (State_order_status_changed_from OPending) st;;
          ret (AuthorizedState_ (snd r))
      | _ => ret (AuthorizedState_ st)
      end
  end.

(** [AuthorizedState::finalize_with_generated_key] *)
Definition AuthorizedState_finalize_with_generated_key (a : AuthorizedState)
  : M (GeneratedKey * FinalizedState) :=
  match a with
  | AuthorizedState_ st =>
      match order_state (order st) with
      | SReady =>
          r <- finalize_with_generated_key (order st);;
          ret (fst r, FinalizedState_ (set_order (snd r) st))
      | _ => throw (unexpected_status "order" (order_status (order st)))
      end
  end.

(** [AuthorizedState::finalize_with_csr] *)
Definition AuthorizedState_finalize_with_csr (a : AuthorizedState) (csr_der : list Byte.byte)
  : M FinalizedState :=
  match a with
  | AuthorizedState_ st =>
      match order_state (order st) with
      | SReady =>
          o' <- finalize (order st) csr_der;;
          ret (FinalizedState_ (set_order o' st))
      | SPending => throw (unexpected_status "order" (order_status (order st)))
      | _ => ret (FinalizedState_ st)
      end
  end.

(** [FinalizedState::get_certificate] (a [&mut self] method). *)
Definition FinalizedState_get_certificate : MutM FinalizedState string :=
  fun f w =>
    match f with
    | FinalizedState_ st =>
        match State_order_status_changed_from OProcessing st w with
        | (Done status, st1, w1) =>
            match order_state (order st1) with
            | SValid =>
                let '(r, w2) := get_certificate_chain (order st1) w1 in
                (r, FinalizedState_ st1, w2)
            | _ => (Fail (unexpected_status "order" status), FinalizedState_ st1, w1)
            end
        | (r, st1, w1) => (omap (fun _ => "") r, FinalizedState_ st1, w1)
        end
    end.

(* ------------------------------------------------------------------ *)
(** ** Configuration (lib.rs) *)

(** [RegisteredState::new] *)
Definition RegisteredState_new (client : LocalcertClient) (account : Account)
  (acme_polling_interval : nat) : RegisteredState :=
  mkRegisteredState client account acme_polling_interval.

Definition DEFAULT_SERVER_URL : string := "https://localcert.dev".

(** [Duration::from_secs(5)]; a polling interval is counted in seconds here,
    and nothing in the model reads it. *)
Definition DEFAULT_ACME_POLLING_INTERVAL : nat := 5.

(** [ConfigBuilder], without its HTTP transport (the world plays it). *)
Record ConfigBuilder := mkConfigBuilder {
  server_url : option string;
  cb_acme_polling_interval : nat;
}.

(** [ConfigBuilder::with_http_client] *)
Definition with_http_client : ConfigBuilder :=
  mkConfigBuilder None DEFAULT_ACME_POLLING_INTERVAL.

(** [ConfigBuilder::localcert_server_url] *)
Definition localcert_server_url (b : ConfigBuilder) (url : string) : ConfigBuilder :=
  mkConfigBuilder (Some url) (cb_acme_polling_interval b).

(** [ConfigBuilder::acme_polling_interval] *)
Definition set_acme_polling_interval (b : ConfigBuilder) (interval : nat) : ConfigBuilder :=
  mkConfigBuilder (server_url b) interval.

(** [ConfigBuilder::build_with_account]; [parse] is [<&str as TryInto<Url>>]
    with its error formatted by [to_string]. *)
Definition build_with_account (parse : string -> Result Url string) (b : ConfigBuilder)
  (acme_account : Account) : Result RegisteredState LocalcertError :=
  let base_url := match server_url b with Some u => u | None => DEFAULT_SERVER_URL end in
  match new_client (parse base_url) with
  | Ok localcert_client =>
      Ok (RegisteredState_new localcert_client acme_account (cb_acme_polling_interval b))
  | Err e => Err e
  end.

(** The client, account and polling interval a phase threads along. *)
Definition session (s : State) : LocalcertClient * Account * nat :=
  (client s, account s, acme_polling_interval s).

Definition resume_state (r : ResumeOrderState) : State :=
  match r with
  | Ordered (OrderedState_ s) | Authorized (AuthorizedState_ s)
  | Finalized (FinalizedState_ s) => s
  end.

(* ------------------------------------------------------------------ *)
(** ** Sample values *)

Definition example_url : Url := mkUrl "https" (Some "localcert.dev") false [""].

Definition example_client : LocalcertClient := mkLocalcertClient example_url.

Definition example_account : Account :=
  mkAccount "https://acme.example/acct/1" "example-jwk" "https://acme.example/new-acct".

Definition example_order (s : OrderStatus) : Order :=
  mkOrder "https://acme.example/order/7" s.

Definition example_state (s : OrderStatus) : State :=
  mkState example_client example_account (example_order s) 5.

Definition example_registered : RegisteredState :=
  mkRegisteredState example_client example_account 5.

Definition example_challenge : Challenge :=
  mkChallenge CHALLENGE_TYPE_DNS_01 "https://acme.example/chall/3" CPending.

Definition example_authorization (s : AuthorizationStatus) : Authorization :=
  mkAuthorization "https://acme.example/authz/2" s [example_challenge].

(** A world in which the authority knows [o] and [a], reports [polls] on
    re-query, and the provisioning server answers with [http]. *)
Definition example_world (http : list HttpReply) (o : Order) (a : Authorization)
  (polls : list OrderStatus) : World :=
  {| w_log := []; w_nonce := 0; w_http := http;
     w_new_dns_order := fun d => Ok (mkOrder ("https://acme.example/order/" ++ d) OPending);
     w_get_order := fun _ => Ok o;
     w_get_authorization := fun _ => Ok a;
     w_polls := polls;
     w_respond := Ok tt;
     w_finalize := fun o _ => Ok (mkOrder (order_url o) OProcessing);
     w_generated_key := fun o => Ok ("KEY", mkOrder (order_url o) OProcessing);
     w_certificate_chain := fun _ => Ok "-----BEGIN CERTIFICATE-----" |}.

(** A URL parser that knows only the default server URL, which it parses
    as the url crate does. *)
Definition parse_localcert_dev (s : string) : Result Url string :=
  if String.eqb s DEFAULT_SERVER_URL then Ok (mkUrl "https" (Some "localcert.dev") false [""])
  else Err "relative URL without a base".

Definition bad_nonce_reply : HttpReply :=
  Reply (mkHttpResponse 400 (RProblem (mkProblem BAD_NONCE_TYPE "stale nonce"))).

(** The URL a client POSTs to for an endpoint. *)
Definition endpoint_url (c : LocalcertClient) (path : string) : Url :=
  set_segments (base_url c) (removelast (url_segments (base_url c)) ++ [path]).

(** The envelopes [get_domain_once] and [provision_domain_once] sign. *)
Definition domain_envelope (acct : Account) (n : nat) : SignedRequest :=
  mkSignedRequest (account_new_account_url acct) (Jwk (account_public_jwk acct)) n
    (NewAccountResource true).

Definition provision_envelope (acct : Account) (authz : string) (n : nat) : SignedRequest :=
  mkSignedRequest authz (Kid (account_url acct)) n NO_PAYLOAD.

(** Calls of the wire client only POST to the provisioning server. *)
Definition only_posts (l : list Event) : Prop :=
  Forall (fun e => match e with EPost _ _ => True | _ => False end) l.

(* ================================================================== *)
(** * Properties *)

Ltac unfold_m :=
  unfold bind, ret, throw, panic, emit, ask, acme, run_mut in *.

(** ** Finalization *)

Section Finalize.

Variable st : State.
Variable csr : list Byte.byte.

Lemma finalize_with_generated_key_not_ready (w : World) :
  order_status (order st) <> OReady ->
  AuthorizedState_finalize_with_generated_key (AuthorizedState_ st) w
  = (Fail (unexpected_status "order" (order_status (order st))), w).
Proof.
  intros H. unfold AuthorizedState_finalize_with_generated_key, order_state.
  destruct (order_status (order st)); try reflexivity. congruence.
Qed.

Lemma finalize_with_csr_pending (w : World) :
  order_status (order st) = OPending ->
  AuthorizedState_finalize_with_csr (AuthorizedState_ st) csr w
  = (Fail (unexpected_status "order" OPending), w).
Proof.
  intros H. unfold AuthorizedState_finalize_with_csr, order_state. rewrite H.
  reflexivity.
Qed.

Lemma finalize_with_csr_past_ready (w : World) :
  order_status (order st) <> OPending -> order_status (order st) <> OReady ->
  AuthorizedState_finalize_with_csr (AuthorizedState_ st) csr w
  = (Done (FinalizedState_ st), w).
Proof.
  intros H1 H2. unfold AuthorizedState_finalize_with_csr, order_state.
  destruct (order_status (order st)); try reflexivity; congruence.
Qed.

End Finalize.

(** C1 (amended).  On an Authorized phase whose order is not Ready,
    [finalize_with_generated_key] fails with the unexpected-status error
    carrying the order's status, for every such status; [finalize_with_csr]
    fails so only when the order is Pending, and for an order already
    Processing, Valid or Invalid it yields a Finalized phase on the same
    order without submitting the CSR. *)
Theorem C1_finalize_not_ready (st : State) (csr : list Byte.byte) (w : World) :
  order_status (order st) <> OReady ->
  AuthorizedState_finalize_with_generated_key (AuthorizedState_ st) w
    = (Fail (unexpected_status "order" (order_status (order st))), w)
  /\ (order_status (order st) = OPending ->
      AuthorizedState_finalize_with_csr (AuthorizedState_ st) csr w
      = (Fail (unexpected_status "order" OPending), w))
  /\ (order_status (order st) <> OPending ->
      AuthorizedState_finalize_with_csr (AuthorizedState_ st) csr w
      = (Done (FinalizedState_ st), w)).
Proof.
  intros H. split; [|split].
  - apply finalize_with_generated_key_not_ready; exact H.
  - apply finalize_with_csr_pending.
  - intros H'. apply finalize_with_csr_past_ready; assumption.
Qed.

Lemma C1_finalize_not_ready_witness :
  order_status (order (example_state OValid)) <> OReady
  /\ AuthorizedState_finalize_with_csr (AuthorizedState_ (example_state OValid)) []
       (example_world [] (example_order OValid) (example_authorization AValid) [])
     = (Done (FinalizedState_ (example_state OValid)),
        example_world [] (example_order OValid) (example_authorization AValid) []).
Proof.
  assert (H : order_status (order (example_state OValid)) <> OReady) by discriminate.
  split; [exact H|].
  apply (C1_finalize_not_ready (example_state OValid) []
           (example_world [] (example_order OValid) (example_authorization AValid) []) H).
  discriminate.
Defined.

(** C1 (counterexample).  [finalize_with_csr] on an Authorized phase whose
    order is Valid does not fail: it yields a Finalized phase. *)
Lemma C1_finalize_with_csr_valid_ok :
  exists f w',
    AuthorizedState_finalize_with_csr (AuthorizedState_ (example_state OValid)) []
      (example_world [] (example_order OValid) (example_authorization AValid) [])
    = (Done f, w').
Proof. do 2 eexists. reflexivity. Qed.

(** ** Resuming an order *)

Section Resume.

Variable r : RegisteredState.
Variable url : string.
Variable w : World.
Variable o : Order.
Hypothesis Hget : w_get_order w url = Ok o.

Let st := mkState (rs_client r) (rs_account r) o (rs_acme_polling_interval r).
Let w1 := log_event (EGetOrder url) w.

Lemma resume_order_unfold :
  RegisteredState_resume_order r url w
  = (match order_status o with
     | OPending => Done (Ordered (OrderedState_ st))
     | OReady => Done (Authorized (AuthorizedState_ st))
     | OProcessing | OValid => Done (Finalized (FinalizedState_ st))
     | OInvalid => Panic
     end, w1).
Proof.
  unfold RegisteredState_resume_order, get_order. unfold_m. simpl.
  unfold w1, log_event in *. simpl. rewrite Hget. unfold ret, panic. simpl.
  destruct (order_status o); reflexivity.
Qed.

End Resume.

(** C2 (amended).  [resume_order] classifies the fetched order by status:
    Pending gives an Ordered phase, Ready an Authorized phase, Processing or
    Valid a Finalized phase, each wrapping the fetched order; any other
    status (Invalid) reaches [unreachable!()] and panics. *)
Theorem C2_resume_order_classifies (r : RegisteredState) (url : string) (w : World)
  (o : Order) :
  w_get_order w url = Ok o ->
  let st := mkState (rs_client r) (rs_account r) o (rs_acme_polling_interval r) in
  let w1 := log_event (EGetOrder url) w in
  (order_status o = OPending ->
     RegisteredState_resume_order r url w = (Done (Ordered (OrderedState_ st)), w1))
  /\ (order_status o = OReady ->
     RegisteredState_resume_order r url w = (Done (Authorized (AuthorizedState_ st)), w1))
  /\ (order_status o = OProcessing \/ order_status o = OValid ->
     RegisteredState_resume_order r url w = (Done (Finalized (FinalizedState_ st)), w1))
  /\ (order_status o = OInvalid ->
     RegisteredState_resume_order r url w = (Panic, w1)).
Proof.
  intros Hget st w1.
  pose proof (resume_order_unfold r url w o Hget) as E.
  repeat split; intros Hs; rewrite E;
    [rewrite Hs | rewrite Hs | destruct Hs as [Hs|Hs]; rewrite Hs | rewrite Hs];
    reflexivity.
Qed.

Lemma C2_resume_order_classifies_witness :
  w_get_order (example_world [] (example_order OReady) (example_authorization AValid) [])
    "https://acme.example/order/7" = Ok (example_order OReady)
  /\ RegisteredState_resume_order example_registered "https://acme.example/order/7"
       (example_world [] (example_order OReady) (example_authorization AValid) [])
     = (Done (Authorized (AuthorizedState_ (example_state OReady))),
        log_event (EGetOrder "https://acme.example/order/7")
          (example_world [] (example_order OReady) (example_authorization AValid) [])).
Proof.
  assert (H : w_get_order (example_world [] (example_order OReady)
                (example_authorization AValid) [])
              "https://acme.example/order/7" = Ok (example_order OReady))
    by reflexivity.
  split; [exact H|].
  apply (C2_resume_order_classifies example_registered "https://acme.example/order/7"
           _ _ H).
  reflexivity.
Defined.

(** C2 (counterexample).  Resuming an order the authority reports Invalid
    crashes instead of returning a result. *)
Lemma C2_resume_invalid_panics :
  fst (RegisteredState_resume_order example_registered "https://acme.example/order/7"
         (example_world [] (example_order OInvalid) (example_authorization AValid) []))
  = Panic.
Proof. reflexivity. Qed.

(** ** Authorization *)

Lemma authorize_unexpected_status (c : LocalcertClient) (acct : Account)
  (a : Authorization) (w : World) :
  authz_status a <> APending -> authz_status a <> AValid ->
  authorize c acct a w = (Panic, w).
Proof.
  intros H1 H2. unfold authorize.
  destruct (authz_status a); try reflexivity; congruence.
Qed.

(** C10.  [authorize] is not total over authorization statuses: for an
    authorization that is neither Pending nor Valid (Invalid, Deactivated,
    Expired, Revoked) the free function [authorize] reaches
    [unreachable!()] and crashes, and so does [OrderedState::authorize] on a
    Pending order whose authorization the authority reports so, instead of
    returning a tagged error. *)
Theorem C10_authorize_panics (a : Authorization) :
  authz_status a <> APending -> authz_status a <> AValid ->
  (forall c acct w, authorize c acct a w = (Panic, w))
  /\ (forall st w,
        order_status (order st) = OPending ->
        w_get_authorization w (order st) = Ok a ->
        OrderedState_authorize (OrderedState_ st) w
        = (Panic, log_event (EGetAuthorization (order_url (order st))) w)).
Proof.
  intros H1 H2. split.
  - intros c acct w. apply authorize_unexpected_status; assumption.
  - intros st w Hs Ha. unfold OrderedState_authorize, order_state. rewrite Hs.
    unfold get_only_authorization. unfold_m. simpl. rewrite Ha. unfold ret. simpl.
    rewrite authorize_unexpected_status by assumption. reflexivity.
Qed.

Lemma C10_authorize_panics_witness :
  fst (authorize example_client example_account (example_authorization ARevoked)
         (example_world [] (example_order OPending) (example_authorization ARevoked) []))
  = Panic.
Proof.
  destruct (C10_authorize_panics (example_authorization ARevoked)) as [H _];
    [discriminate | discriminate |].
  rewrite H. reflexivity.
Defined.

(** ** The nonce retry of the wire client *)

Section WireClient.

Variable c : LocalcertClient.
Variable acct : Account.
Hypothesis Hbase : url_cannot_be_a_base (base_url c) = false.

Lemma join_base (path : string) : join (base_url c) path = Some (endpoint_url c path).
Proof. unfold join, endpoint_url. rewrite Hbase. reflexivity. Qed.

Lemma get_domain_once_eq (w : World) (r : HttpReply) (rest : list HttpReply) :
  w_http w = r :: rest ->
  get_domain_once c acct w
  = (handle_reply r,
     set_http rest
       (log_event (EPost (endpoint_url c "domain")
                     (BDomainRequest (mkDomainRequest (domain_envelope acct (w_nonce w)))))
          (set_nonce (S (w_nonce w)) w))).
Proof.
  intros Hh. unfold get_domain_once, localcert_request. rewrite join_base.
  unfold_m. unfold build_request_body. simpl. rewrite Hh. reflexivity.
Qed.

Lemma provision_domain_once_eq (authz : string) (w : World) (r : HttpReply)
  (rest : list HttpReply) :
  w_http w = r :: rest ->
  provision_domain_once c acct authz w
  = (handle_reply r,
     set_http rest
       (log_event (EPost (endpoint_url c "provision")
                     (BProvisionRequest (mkProvisionRequest (account_public_jwk acct)
                                           (provision_envelope acct authz (w_nonce w)))))
          (set_nonce (S (w_nonce w)) w))).
Proof.
  intros Hh. unfold provision_domain_once, localcert_request. rewrite join_base.
  unfold_m. unfold build_request_body. simpl. rewrite Hh. reflexivity.
Qed.

End WireClient.

(** C6.  With a provisioning server whose first two replies are [r1] and
    [r2]: for claim domain ([get_domain]) and for provision
    ([provision_domain]) alike, if the first attempt fails with a bad-nonce
    problem, exactly one more attempt is made, with a newly signed envelope
    (a different nonce), and its outcome is returned as it is (a second
    bad-nonce failure included); if the first outcome is anything else, it
    is returned unchanged and no second request is sent. *)
Theorem C6_nonce_retry (c : LocalcertClient) (acct : Account) (authz : string)
  (w : World) (r1 r2 : HttpReply) (rest : list HttpReply) :
  url_cannot_be_a_base (base_url c) = false ->
  w_http w = r1 :: r2 :: rest ->
  ((is_bad_nonce_error (handle_reply (Res := DomainResult) r1) = true ->
      fst (get_domain c acct w) = handle_reply r2
      /\ w_http (snd (get_domain c acct w)) = rest
      /\ exists u sr1 sr2,
           w_log (snd (get_domain c acct w))
           = (w_log w ++ [EPost u (BDomainRequest (mkDomainRequest sr1));
                          EPost u (BDomainRequest (mkDomainRequest sr2))])%list
           /\ sr_nonce sr1 <> sr_nonce sr2)
   /\ (is_bad_nonce_error (handle_reply (Res := DomainResult) r1) = false ->
      fst (get_domain c acct w) = handle_reply r1
      /\ w_http (snd (get_domain c acct w)) = r2 :: rest))
  /\ ((is_bad_nonce_error (handle_reply (Res := ProvisionResult) r1) = true ->
      fst (provision_domain c acct authz w) = handle_reply r2
      /\ w_http (snd (provision_domain c acct authz w)) = rest
      /\ exists u sr1 sr2,
           w_log (snd (provision_domain c acct authz w))
           = (w_log w ++ [EPost u (BProvisionRequest
                                     (mkProvisionRequest (account_public_jwk acct) sr1));
                          EPost u (BProvisionRequest
                                     (mkProvisionRequest (account_public_jwk acct) sr2))])%list
           /\ sr_nonce sr1 <> sr_nonce sr2)
   /\ (is_bad_nonce_error (handle_reply (Res := ProvisionResult) r1) = false ->
      fst (provision_domain c acct authz w) = handle_reply r1
      /\ w_http (snd (provision_domain c acct authz w)) = r2 :: rest)).
Proof.
  intros Hb Hh. split; split; intros Hn.
  - unfold get_domain. rewrite (get_domain_once_eq c acct Hb w r1 (r2 :: rest) Hh).
    rewrite Hn.
    rewrite (get_domain_once_eq c acct Hb _ r2 rest) by (simpl; reflexivity).
    simpl. split; [reflexivity|]. split; [reflexivity|].
    do 3 eexists. split.
    + rewrite <- app_assoc. reflexivity.
    + simpl. lia.
  - unfold get_domain. rewrite (get_domain_once_eq c acct Hb w r1 (r2 :: rest) Hh).
    rewrite Hn. simpl. split; reflexivity.
  - unfold provision_domain.
    rewrite (provision_domain_once_eq c acct Hb authz w r1 (r2 :: rest) Hh).
    rewrite Hn.
    rewrite (provision_domain_once_eq c acct Hb authz _ r2 rest) by (simpl; reflexivity).
    simpl. split; [reflexivity|]. split; [reflexivity|].
    do 3 eexists. split.
    + rewrite <- app_assoc. reflexivity.
    + simpl. lia.
  - unfold provision_domain.
    rewrite (provision_domain_once_eq c acct Hb authz w r1 (r2 :: rest) Hh).
    rewrite Hn. simpl. split; reflexivity.
Qed.

Lemma C6_nonce_retry_witness :
  fst (get_domain example_client example_account
         (example_world [bad_nonce_reply;
                         Reply (mkHttpResponse 200 (RDomainResult (mkDomainResult "abc.localcert.net")))]
            (example_order OPending) (example_authorization APending) []))
  = Done (mkDomainResult "abc.localcert.net").
Proof.
  destruct (C6_nonce_retry example_client example_account "" 
              (example_world [bad_nonce_reply;
                              Reply (mkHttpResponse 200
                                       (RDomainResult (mkDomainResult "abc.localcert.net")))]
                 (example_order OPending) (example_authorization APending) [])
              bad_nonce_reply
              (Reply (mkHttpResponse 200 (RDomainResult (mkDomainResult "abc.localcert.net"))))
              [] eq_refl eq_refl) as [[H _] _].
  destruct (H eq_refl) as [E _]. rewrite E. reflexivity.
Defined.

Lemma get_authorization_log (e : Event) (w : World) :
  w_get_authorization (log_event e w) = w_get_authorization w.
Proof. reflexivity. Qed.

Lemma polls_log (e : Event) (w : World) : w_polls (log_event e w) = w_polls w.
Proof. reflexivity. Qed.

Lemma only_posts_app (l1 l2 : list Event) :
  only_posts l1 -> only_posts l2 -> only_posts (l1 ++ l2).
Proof. unfold only_posts. intros. apply Forall_app. auto. Qed.

Lemma localcert_request_log {Req Res} `{Serialize Req} `{DeserializeOwned Res}
  (c : LocalcertClient) (path : string) (body : Req) (w w' : World) (r : outcome Res) :
  localcert_request c path body w = (r, w') ->
  exists l, w_log w' = (w_log w ++ l)%list /\ only_posts l.
Proof.
  unfold localcert_request. destruct (join (base_url c) path) as [url|].
  - unfold_m. simpl. destruct (w_http w) as [|x rest]; intros E; injection E as _ <-;
      exists [EPost url (to_body body)]; split; try reflexivity;
      repeat constructor.
  - unfold panic. intros E. injection E as _ <-. exists []. split.
    + rewrite app_nil_r. reflexivity.
    + constructor.
Qed.

Lemma provision_domain_once_log (c : LocalcertClient) (acct : Account) (u : string)
  (w w' : World) (r : outcome ProvisionResult) :
  provision_domain_once c acct u w = (r, w') ->
  exists l, w_log w' = (w_log w ++ l)%list /\ only_posts l.
Proof.
  unfold provision_domain_once. unfold bind at 1. unfold build_request_body.
  intros E. apply localcert_request_log in E. exact E.
Qed.

Lemma provision_domain_log (c : LocalcertClient) (acct : Account) (u : string)
  (w w' : World) (r : outcome ProvisionResult) :
  provision_domain c acct u w = (r, w') ->
  exists l, w_log w' = (w_log w ++ l)%list /\ only_posts l.
Proof.
  unfold provision_domain.
  destruct (provision_domain_once c acct u w) as [r1 w1] eqn:E1.
  destruct (provision_domain_once_log c acct u w w1 r1 E1) as [l1 [L1 P1]].
  destruct (is_bad_nonce_error r1).
  - intros E2. destruct (provision_domain_once_log c acct u w1 w' r E2) as [l2 [L2 P2]].
    exists (l1 ++ l2)%list. split.
    + rewrite L2, L1, app_assoc. reflexivity.
    + apply only_posts_app; assumption.
  - intros E2. injection E2 as _ <-. exists l1. auto.
Qed.

Lemma only_posts_no_respond (l : list Event) (u : string) :
  only_posts l -> ~ In (ERespond u) l.
Proof.
  unfold only_posts. intros H Hin. rewrite Forall_forall in H.
  exact (H _ Hin).
Qed.

(** C3.  In [OrderedState::authorize] on a Pending order whose Pending
    authorization has a DNS-01 challenge: when the provisioning endpoint
    answers with a challenge URL that differs, as a string, from the
    challenge's own URL, [authorize] fails with the state error, right
    after the provisioning call, without responding to any challenge; this
    holds for every pair of distinct URLs, whatever their form. *)
Theorem C3_authorize_rejects_mismatch (st : State) (a : Authorization) (ch : Challenge)
  (pr : ProvisionResult) (w w1 : World) :
  order_status (order st) = OPending ->
  w_get_authorization w (order st) = Ok a ->
  authz_status a = APending ->
  find_challenge_type a CHALLENGE_TYPE_DNS_01 = Some ch ->
  provision_domain (client st) (account st) (authz_url a)
    (log_event (EGetAuthorization (order_url (order st))) w) = (Done pr, w1) ->
  provisioned_challenge_url pr <> challenge_url ch ->
  OrderedState_authorize (OrderedState_ st) w
  = (Fail (StateError "provisioned challenge doesn't match DNS-01 challenge"), w1)
  /\ (forall u, In (ERespond u) (w_log w1) -> In (ERespond u) (w_log w)).
Proof.
  intros Hs Ha Hst Hf Hp Hne. split.
  - unfold OrderedState_authorize, order_state. rewrite Hs.
    unfold get_only_authorization, emit, ask, acme. unfold bind at 1 2.
    rewrite get_authorization_log, Ha. unfold ret, bind at 1.
    unfold authorize. rewrite Hst, Hf. unfold bind at 1. rewrite Hp.
    apply String.eqb_neq in Hne. rewrite Hne. reflexivity.
  - intros u Hin.
    destruct (provision_domain_log _ _ _ _ _ _ Hp) as [l [L P]].
    rewrite L in Hin. simpl in Hin. rewrite <- app_assoc in Hin.
    apply in_app_or in Hin. destruct Hin as [Hin|Hin]; [exact Hin|].
    simpl in Hin. destruct Hin as [Hin|Hin]; [discriminate|].
    exfalso. exact (only_posts_no_respond l u P Hin).
Qed.

Lemma C3_authorize_rejects_mismatch_witness :
  fst (OrderedState_authorize (OrderedState_ (example_state OPending))
         (example_world [Reply (mkHttpResponse 200
                                  (RProvisionResult
                                     (mkProvisionResult "https://acme.example/authz/2"
                                        "https://acme.example/chall/9")))]
            (example_order OPending) (example_authorization APending) []))
  = Fail (StateError "provisioned challenge doesn't match DNS-01 challenge").
Proof.
  destruct (C3_authorize_rejects_mismatch (example_state OPending)
              (example_authorization APending) example_challenge
              (mkProvisionResult "https://acme.example/authz/2" "https://acme.example/chall/9")
              (example_world [Reply (mkHttpResponse 200
                                       (RProvisionResult
                                          (mkProvisionResult "https://acme.example/authz/2"
                                             "https://acme.example/chall/9")))]
                 (example_order OPending) (example_authorization APending) [])
              (snd (provision_domain example_client example_account
                      "https://acme.example/authz/2"
                      (log_event (EGetAuthorization "https://acme.example/order/7")
                         (example_world [Reply (mkHttpResponse 200
                                                  (RProvisionResult
                                                     (mkProvisionResult
                                                        "https://acme.example/authz/2"
                                                        "https://acme.example/chall/9")))]
                            (example_order OPending) (example_authorization APending) []))))
              eq_refl eq_refl eq_refl eq_refl eq_refl) as [E _].
  - discriminate.
  - rewrite E. reflexivity.
Defined.

(** C7.  On an authorization that is already Valid, the free function
    [authorize] succeeds touching nothing (no provisioning call, no
    challenge response, the world unchanged), also when run twice in
    sequence; [OrderedState::authorize] on a Pending order whose
    authorization is Valid only fetches that authorization, then waits for
    the order to leave Pending and yields an Authorized phase on the
    refreshed order, with no provisioning call; on an order that is no
    longer Pending it yields an Authorized phase with no call at all. *)
Theorem C7_authorize_valid_idempotent (a : Authorization) :
  authz_status a = AValid ->
  (forall c acct w, authorize c acct a w = (Done tt, w))
  /\ (forall c acct w, (authorize c acct a ;;; authorize c acct a) w = (Done tt, w))
  /\ (forall st w s rest,
        order_status (order st) = OPending ->
        w_get_authorization w (order st) = Ok a ->
        await_change OPending (w_polls w) = Some (s, rest) ->
        OrderedState_authorize (OrderedState_ st) w
        = (Done (AuthorizedState_ (set_order (mkOrder (order_url (order st)) s) st)),
           set_polls rest (log_event (EGetAuthorization (order_url (order st))) w)))
  /\ (forall st w,
        order_status (order st) <> OPending ->
        OrderedState_authorize (OrderedState_ st) w = (Done (AuthorizedState_ st), w)).
Proof.
  intros Hv.
  assert (H1 : forall c acct w, authorize c acct a w = (Done tt, w)).
  { intros c acct w. unfold authorize. rewrite Hv. reflexivity. }
  split; [exact H1|]. split; [|split].
  - intros c acct w. unfold bind. rewrite H1. apply H1.
  - intros st w s rest Hs Ha Hp.
    unfold OrderedState_authorize, order_state. rewrite Hs.
    unfold get_only_authorization, emit, ask, acme. unfold bind at 1 2.
    rewrite get_authorization_log, Ha. unfold ret at 1. unfold bind at 1.
    rewrite H1. unfold bind, run_mut, State_order_status_changed_from.
    rewrite Hs. simpl OrderStatus_eqb. cbv iota.
    unfold status_changed. rewrite Hs, polls_log, Hp. reflexivity.
  - intros st w Hs. unfold OrderedState_authorize, order_state.
    destruct (order_status (order st)); try reflexivity. congruence.
Qed.

Lemma C7_authorize_valid_idempotent_witness :
  (authorize example_client example_account (example_authorization AValid) ;;;
   authorize example_client example_account (example_authorization AValid))
    (example_world [] (example_order OPending) (example_authorization AValid) [])
  = (Done tt, example_world [] (example_order OPending) (example_authorization AValid) []).
Proof.
  destruct (C7_authorize_valid_idempotent (example_authorization AValid) eq_refl)
    as [_ [H _]].
  apply H.
Defined.

(** ** Opening an order *)

Lemma join_endpoint (c : LocalcertClient) (path : string) (url : Url) :
  join (base_url c) path = Some url -> url = endpoint_url c path.
Proof.
  unfold join, endpoint_url. destruct (url_cannot_be_a_base (base_url c));
    intros E; [discriminate | injection E as <-; reflexivity].
Qed.

Lemma get_domain_once_log (c : LocalcertClient) (acct : Account) (w w' : World)
  (r : outcome DomainResult) :
  get_domain_once c acct w = (r, w') ->
  exists l, w_log w' = (w_log w ++ l)%list /\ only_posts l.
Proof.
  unfold get_domain_once. unfold bind at 1. unfold build_request_body.
  intros E. apply localcert_request_log in E. exact E.
Qed.

Lemma get_domain_once_done (c : LocalcertClient) (acct : Account) (w w' : World)
  (d : DomainResult) :
  get_domain_once c acct w = (Done d, w') ->
  exists n, w_log w' = (w_log w ++ [EPost (endpoint_url c "domain")
                                    (BDomainRequest (mkDomainRequest
                                                       (domain_envelope acct n)))])%list.
Proof.
  unfold get_domain_once, localcert_request. unfold bind at 1. unfold build_request_body.
  destruct (join (base_url c) "domain") as [url|] eqn:J.
  - apply join_endpoint in J. subst url. unfold_m. simpl.
    destruct (w_http w) as [|x rest]; intros E; [discriminate|].
    injection E as _ <-. exists (w_nonce w). reflexivity.
  - discriminate.
Qed.

Lemma get_domain_done (c : LocalcertClient) (acct : Account) (w w' : World)
  (d : DomainResult) :
  get_domain c acct w = (Done d, w') ->
  exists l n, w_log w' = (w_log w ++ l)%list
    /\ In (EPost (endpoint_url c "domain")
             (BDomainRequest (mkDomainRequest (domain_envelope acct n)))) l.
Proof.
  unfold get_domain. destruct (get_domain_once c acct w) as [r1 w1] eqn:E1.
  destruct (is_bad_nonce_error r1) eqn:B.
  - intros E2. destruct (get_domain_once_log c acct w w1 r1 E1) as [l1 [L1 _]].
    destruct (get_domain_once_done c acct w1 w' d E2) as [n L2].
    exists (l1 ++ [EPost (endpoint_url c "domain")
                    (BDomainRequest (mkDomainRequest (domain_envelope acct n)))])%list, n.
    split.
    + rewrite L2, L1, app_assoc. reflexivity.
    + apply in_or_app. right. left. reflexivity.
  - intros E2. injection E2 as -> ->.
    destruct (get_domain_once_done c acct w w' d E1) as [n L].
    eexists _, n. split; [exact L|]. left. reflexivity.
Qed.

(** C4.  [new_order] first claims the caller's domain from the provisioning
    server: once that succeeds with a result [d], the log shows a POST to
    the "domain" endpoint carrying an envelope signed with the session's
    Account key and addressed to its account URL; it then opens an
    authority order for exactly the returned domain string, as the last
    call, and yields an Ordered phase wrapping the order the authority
    returned. *)
Theorem C4_new_order (r : RegisteredState) (w w1 : World) (d : DomainResult)
  (o : Order) :
  get_domain (rs_client r) (rs_account r) w = (Done d, w1) ->
  w_new_dns_order w1 (localcert_domain d) = Ok o ->
  RegisteredState_new_order r w
  = (Done (OrderedState_ (mkState (rs_client r) (rs_account r) o
                            (rs_acme_polling_interval r))),
     log_event (ENewDnsOrder (rs_account r) (localcert_domain d)) w1)
  /\ exists l sr,
       w_log w1 = (w_log w ++ l)%list
       /\ In (EPost (endpoint_url (rs_client r) "domain")
                (BDomainRequest (mkDomainRequest sr))) l
       /\ sr_auth sr = Jwk (account_public_jwk (rs_account r))
       /\ sr_url sr = account_new_account_url (rs_account r).
Proof.
  intros Hd Ho. split.
  - unfold RegisteredState_new_order. unfold bind at 1. rewrite Hd.
    unfold new_dns_order, emit, ask, acme, bind. simpl. rewrite Ho. reflexivity.
  - destruct (get_domain_done _ _ _ _ _ Hd) as [l [n [L I]]].
    exists l, (domain_envelope (rs_account r) n). repeat split; assumption.
Qed.

Lemma C4_new_order_witness :
  fst (RegisteredState_new_order example_registered
         (example_world [Reply (mkHttpResponse 200
                                  (RDomainResult (mkDomainResult "abc.localcert.net")))]
            (example_order OPending) (example_authorization APending) []))
  = Done (OrderedState_ (mkState example_client example_account
                           (mkOrder "https://acme.example/order/abc.localcert.net" OPending)
                           5)).
Proof.
  destruct (C4_new_order example_registered
              (example_world [Reply (mkHttpResponse 200
                                       (RDomainResult (mkDomainResult "abc.localcert.net")))]
                 (example_order OPending) (example_authorization APending) [])
              (snd (get_domain example_client example_account
                      (example_world [Reply (mkHttpResponse 200
                                               (RDomainResult
                                                  (mkDomainResult "abc.localcert.net")))]
                         (example_order OPending) (example_authorization APending) [])))
              (mkDomainResult "abc.localcert.net")
              (mkOrder "https://acme.example/order/abc.localcert.net" OPending)
              eq_refl eq_refl) as [E _].
  rewrite E. reflexivity.
Defined.

(** ** Retrieving the certificate *)

Lemma OrderStatus_eqb_true (a b : OrderStatus) : OrderStatus_eqb a b = true -> a = b.
Proof. destruct a, b; simpl; congruence. Qed.

Lemma OrderStatus_eqb_refl (a : OrderStatus) : OrderStatus_eqb a a = true.
Proof. destruct a; reflexivity. Qed.

Lemma await_change_differs (cur : OrderStatus) (polls rest : list OrderStatus)
  (s : OrderStatus) :
  await_change cur polls = Some (s, rest) -> s <> cur.
Proof.
  induction polls as [|p ps IH]; simpl; [discriminate|].
  destruct (OrderStatus_eqb p cur) eqn:E; [exact IH|].
  intros H. injection H as <- _. intros ->. rewrite OrderStatus_eqb_refl in E.
  discriminate.
Qed.

Lemma set_order_same (st : State) :
  set_order (mkOrder (order_url (order st)) (order_status (order st))) st = st.
Proof. destruct st as [c a [u s] i]. reflexivity. Qed.

Lemma set_polls_same (w : World) : set_polls (w_polls w) w = w.
Proof. destruct w. reflexivity. Qed.

(** The resulting status of waiting for [st]'s order to leave [from]. *)
Lemma order_status_changed_from_settled (from : OrderStatus) (st : State) (w : World)
  (s : OrderStatus) (rest : list OrderStatus) :
  (if OrderStatus_eqb (order_status (order st)) from
   then await_change from (w_polls w)
   else Some (order_status (order st), w_polls w)) = Some (s, rest) ->
  s <> from
  /\ State_order_status_changed_from from st w
     = (Done s, set_order (mkOrder (order_url (order st)) s) st, set_polls rest w).
Proof.
  unfold State_order_status_changed_from.
  destruct (OrderStatus_eqb (order_status (order st)) from) eqn:E; intros H.
  - split; [exact (await_change_differs _ _ _ _ H)|].
    apply OrderStatus_eqb_true in E. unfold status_changed. rewrite E, H.
    reflexivity.
  - injection H as <- <-. split.
    + intros Hs. rewrite Hs, OrderStatus_eqb_refl in E. discriminate.
    + rewrite set_order_same, set_polls_same. reflexivity.
Qed.

Lemma get_certificate_settled (st : State) (w : World) (s : OrderStatus)
  (rest : list OrderStatus) :
  (if OrderStatus_eqb (order_status (order st)) OProcessing
   then await_change OProcessing (w_polls w)
   else Some (order_status (order st), w_polls w)) = Some (s, rest) ->
  let st1 := set_order (mkOrder (order_url (order st)) s) st in
  let w1 := set_polls rest w in
  s <> OProcessing
  /\ (s = OValid ->
      FinalizedState_get_certificate (FinalizedState_ st) w
      = (match w_certificate_chain w (order st1) with
         | Ok chain => Done chain
         | Err e => Fail (LAcmeError e)
         end,
         FinalizedState_ st1, log_event (EGetCertificateChain (order_url (order st))) w1))
  /\ (s <> OValid ->
      FinalizedState_get_certificate (FinalizedState_ st) w
      = (Fail (unexpected_status "order" s), FinalizedState_ st1, w1)).
Proof.
  intros H st1 w1.
  destruct (order_status_changed_from_settled OProcessing st w s rest H) as [Hs E].
  split; [exact Hs|]. unfold FinalizedState_get_certificate. rewrite E. split.
  - intros ->. unfold get_certificate_chain, emit, ask, acme, bind. simpl.
    destruct (w_certificate_chain w _); reflexivity.
  - intros Hv. unfold order_state. simpl.
    destruct s; try reflexivity; congruence.
Qed.

(** C5.  [get_certificate] on a Finalized phase first waits for the order
    to leave Processing (re-querying the authority; an order not Processing
    is not waited on); with [s] the resulting status, [s] is not
    Processing, and: when [s] is Valid, the certificate chain the authority
    returns is the result; for every other [s], the result is the
    unexpected-status error carrying [s]. *)
Theorem C5_get_certificate (st : State) (w : World) (s : OrderStatus)
  (rest : list OrderStatus) :
  (if OrderStatus_eqb (order_status (order st)) OProcessing
   then await_change OProcessing (w_polls w)
   else Some (order_status (order st), w_polls w)) = Some (s, rest) ->
  let st1 := set_order (mkOrder (order_url (order st)) s) st in
  let w1 := set_polls rest w in
  s <> OProcessing
  /\ (s = OValid ->
      FinalizedState_get_certificate (FinalizedState_ st) w
      = (match w_certificate_chain w (order st1) with
         | Ok chain => Done chain
         | Err e => Fail (LAcmeError e)
         end,
         FinalizedState_ st1, log_event (EGetCertificateChain (order_url (order st))) w1))
  /\ (s <> OValid ->
      FinalizedState_get_certificate (FinalizedState_ st) w
      = (Fail (unexpected_status "order" s), FinalizedState_ st1, w1)).
Proof. exact (get_certificate_settled st w s rest). Qed.

Lemma C5_get_certificate_witness :
  fst (fst (FinalizedState_get_certificate (FinalizedState_ (example_state OProcessing))
              (example_world [] (example_order OProcessing) (example_authorization AValid)
                 [OProcessing; OValid])))
  = Done "-----BEGIN CERTIFICATE-----".
Proof.
  destruct (C5_get_certificate (example_state OProcessing)
              (example_world [] (example_order OProcessing) (example_authorization AValid)
                 [OProcessing; OValid]) OValid [] eq_refl) as [_ [H _]].
  rewrite (H eq_refl). reflexivity.
Defined.





(** ** The base URL of the wire client *)

Lemma string_app_assoc (a b c : string) : (a ++ b) ++ c = a ++ (b ++ c).
Proof. induction a as [|x a IH]; simpl; [reflexivity | rewrite IH; reflexivity]. Qed.

Lemma string_app_empty_r (a : string) : a ++ "" = a.
Proof. induction a as [|x a IH]; simpl; [reflexivity | rewrite IH; reflexivity]. Qed.

Lemma concat_snoc (sep x : string) (l : list string) :
  l <> [] -> String.concat sep (l ++ [x]) = String.concat sep l ++ sep ++ x.
Proof.
  induction l as [|a l IH]; intros Hne; [congruence|].
  destruct l as [|b l]; [reflexivity|].
  change (String.concat sep (a :: ((b :: l) ++ [x])%list)
          = (a ++ sep ++ String.concat sep (b :: l)) ++ sep ++ x).
  cbn [app]. change (String.concat sep (a :: b :: (l ++ [x])%list))
                 with (a ++ sep ++ String.concat sep (b :: (l ++ [x])%list)).
  change (b :: (l ++ [x]))%list with ((b :: l) ++ [x])%list.
  rewrite IH by discriminate. rewrite !string_app_assoc. reflexivity.
Qed.

(** The path of segments [l ++ [x]]. *)
Lemma url_path_snoc (u : Url) (l : list string) (x : string) :
  url_segments u = (l ++ [x])%list ->
  url_path u = match l with [] => "/" ++ x | _ => "/" ++ String.concat "/" l ++ "/" ++ x end.
Proof.
  unfold url_path. intros ->. destruct l as [|a l]; [reflexivity|].
  change (((a :: l) ++ [x])%list) with (a :: (l ++ [x]))%list.
  change (match (a :: (l ++ [x]))%list with [] => "" | segs => "/" ++ String.concat "/" segs end)
    with ("/" ++ String.concat "/" (a :: (l ++ [x]))%list).
  change (a :: (l ++ [x]))%list with ((a :: l) ++ [x])%list.
  rewrite concat_snoc by discriminate. reflexivity.
Qed.

Lemma pop_if_empty_shape (segs : list string) :
  segs = pop_if_empty segs \/ segs = (pop_if_empty segs ++ [""])%list.
Proof.
  destruct segs as [|a [|b l]]; [left; reflexivity | left; reflexivity |].
  cbv beta iota delta [pop_if_empty].
  destruct (String.eqb (last (a :: b :: l) "") "") eqn:E; [right | left; reflexivity].
  apply String.eqb_eq in E.
  exact (eq_trans (app_removelast_last (l := a :: b :: l) "" ltac:(discriminate))
           (f_equal (fun x => (removelast (a :: b :: l) ++ [x])%list) E)).
Qed.

Lemma pop_if_empty_snoc (P : list string) : P <> [] -> pop_if_empty (P ++ [""])%list = P.
Proof.
  intros Hne. destruct P as [|a l]; [congruence|].
  unfold pop_if_empty.
  destruct ((a :: l) ++ [""])%list as [|x [|y r]] eqn:E.
  - discriminate.
  - destruct l; discriminate.
  - rewrite <- E, last_last, removelast_last. reflexivity.
Qed.

Lemma push_empty_cases (P : list string) :
  (P = [""] /\ push "" P = [""]) \/ (P <> [""] /\ push "" P = (P ++ [""])%list).
Proof.
  unfold push. cbn [orb String.eqb].
  destruct P as [|s [|t l]].
  - right. split; [discriminate | reflexivity].
  - destruct (String.eqb s "") eqn:Es.
    + apply String.eqb_eq in Es. subst s. left. split; reflexivity.
    + right. split; [|reflexivity].
      intros H. injection H as ->. discriminate.
  - right. split; [discriminate | reflexivity].
Qed.

Lemma push_empty_snoc (P : list string) : exists l, push "" P = (l ++ [""])%list.
Proof.
  destruct (push_empty_cases P) as [[_ E] | [_ E]]; [exists []|exists P]; exact E.
Qed.

Lemma push_pop_canonical (P : list string) :
  push "" (pop_if_empty (push "" P)) = push "" P.
Proof.
  destruct (push_empty_cases P) as [[_ E] | [_ E]]; rewrite E; [reflexivity|].
  destruct P as [|a l]; [reflexivity|].
  rewrite pop_if_empty_snoc by discriminate. exact E.
Qed.

Lemma new_client_can_be_base (u : Url) :
  url_cannot_be_a_base u = false ->
  new_client (Ok u)
  = Ok (mkLocalcertClient (set_segments u (push "" (pop_if_empty (url_segments u))))).
Proof. intros H. unfold new_client, path_segments_mut. rewrite H. reflexivity. Qed.

(** C9 (amended).  [LocalcertClient::new] fails with InvalidBaseUrl when
    the value does not convert to a URL (carrying the conversion error) or
    the URL cannot be a base.  Otherwise [pop_if_empty] removes at most one
    trailing empty segment, and pushing the empty segment then appends one,
    except on the root path ["/"], where it fills the lone empty segment:
    the stored path ends in ['/'], and joining "domain" or "provision"
    gives that path followed directly by the endpoint name.  Other empty
    segments of the input are kept. *)
Theorem C9_base_url_canonical :
  (forall msg, new_client (Err msg) = Err (InvalidBaseUrl msg))
  /\ (forall u, url_cannot_be_a_base u = true ->
        new_client (Ok u) = Err (InvalidBaseUrl "cannot be a base URL"))
  /\ (forall u, url_cannot_be_a_base u = false ->
        exists c, new_client (Ok u) = Ok c
          /\ (url_segments u = pop_if_empty (url_segments u)
              \/ url_segments u = (pop_if_empty (url_segments u) ++ [""])%list)
          /\ ((pop_if_empty (url_segments u) = [""] /\ url_segments (base_url c) = [""])
              \/ (pop_if_empty (url_segments u) <> [""]
                  /\ url_segments (base_url c) = (pop_if_empty (url_segments u) ++ [""])%list))
          /\ (exists pre, url_path (base_url c) = pre ++ "/")
          /\ (forall name, name = "domain" \/ name = "provision" ->
                exists j, join (base_url c) name = Some j
                  /\ url_path j = url_path (base_url c) ++ name)).
Proof.
  split; [reflexivity|]. split.
  - intros u H. unfold new_client, path_segments_mut. rewrite H. reflexivity.
  - intros u H. rewrite (new_client_can_be_base u H).
    eexists. split; [reflexivity|]. cbn [base_url].
    split; [apply pop_if_empty_shape|].
    set (P := pop_if_empty (url_segments u)).
    assert (Hseg0 : url_segments (set_segments u (push "" P)) = push "" P) by reflexivity.
    split; [rewrite Hseg0; exact (push_empty_cases P)|].
    destruct (push_empty_snoc P) as [l Hl].
    assert (Hseg : url_segments (set_segments u (push "" P)) = (l ++ [""])%list)
      by (rewrite Hseg0; exact Hl).
    pose proof (url_path_snoc _ _ _ Hseg) as Hp.
    split.
    + rewrite Hp. destruct l as [|a l].
      * exists "". reflexivity.
      * exists ("/" ++ String.concat "/" (a :: l)).
        rewrite !string_app_assoc. reflexivity.
    + intros name _. unfold join. cbn [set_segments url_cannot_be_a_base]. rewrite H.
      eexists. split; [reflexivity|].
      assert (Hj : url_segments (set_segments (set_segments u (push "" P))
                                   (removelast (url_segments
                                      (set_segments u (push "" P))) ++ [name])%list)
                  = (l ++ [name])%list).
      { cbn [url_segments set_segments]. rewrite Hl, removelast_last. reflexivity. }
      rewrite (url_path_snoc _ _ _ Hj), Hp.
      destruct l as [|a l].
      * reflexivity.
      * rewrite !string_app_assoc. reflexivity.
Qed.

Lemma C9_base_url_canonical_witness :
  exists c, new_client (Ok (mkUrl "https" (Some "localcert.dev") false ["api"]))
            = Ok c
    /\ exists j, join (base_url c) "domain" = Some j /\ url_path j = "/api/domain".
Proof.
  destruct C9_base_url_canonical as [_ [_ H]].
  destruct (H (mkUrl "https" (Some "localcert.dev") false ["api"]) eq_refl)
    as [c [Ec [_ [_ [_ J]]]]].
  exists c. split; [exact Ec|].
  destruct (J "domain" (or_introl eq_refl)) as [j [Ej Pj]].
  exists j. split; [exact Ej|]. rewrite Pj.
  cbv in Ec. injection Ec as <-. reflexivity.
Defined.

(** C9 (counterexample).  For the base "https://localcert.dev/a//", which
    [new] accepts, joining "domain" gives the path "/a//domain", with a
    doubled slash. *)
Lemma C9_doubled_slash_kept :
  exists c j,
    new_client (Ok (mkUrl "https" (Some "localcert.dev") false ["a"; ""; ""])) = Ok c
    /\ join (base_url c) "domain" = Some j
    /\ url_path j = "/a//domain".
Proof. do 2 eexists. split; [reflexivity|]. split; reflexivity. Qed.

(* ================================================================== *)
(** * Further properties of the code *)

(** ** Replies of the provisioning server *)

(** X2.  The nonce retry is triggered by exactly one kind of reply: a
    non-2xx reply whose body is a problem document of the badNonce type.
    A 2xx reply, a transport failure, another problem type or an
    undecodable error body is never retried. *)
Theorem X2_bad_nonce_trigger {Res} `{DeserializeOwned Res} (r : HttpReply) :
  is_bad_nonce_error (handle_reply (Res := Res) r) = true <->
  exists resp p, r = Reply resp /\ is_success (resp_status resp) = false
                 /\ resp_body resp = RProblem p /\ problem_type p = BAD_NONCE_TYPE.
Proof.
  split.
  - unfold handle_reply. destruct r as [resp|status msg]; simpl; [|discriminate].
    destruct (is_success (resp_status resp)) eqn:Hs; simpl.
    + destruct (from_body (resp_body resp) : option Res); discriminate.
    + destruct (resp_body resp) eqn:Hb; simpl; try discriminate.
      unfold has_type_bad_nonce. intros E. apply String.eqb_eq in E.
      exists resp, p. auto.
  - intros [resp [p [-> [Hs [Hb Ht]]]]]. unfold handle_reply. rewrite Hs, Hb. simpl.
    unfold has_type_bad_nonce. rewrite Ht. reflexivity.
Qed.

Lemma X2_bad_nonce_trigger_witness :
  is_bad_nonce_error (handle_reply (Res := ProvisionResult) bad_nonce_reply) = true.
Proof.
  apply (proj2 (@X2_bad_nonce_trigger ProvisionResult _ bad_nonce_reply)).
  exists (mkHttpResponse 400 (RProblem (mkProblem BAD_NONCE_TYPE "stale nonce"))),
    (mkProblem BAD_NONCE_TYPE "stale nonce").
  repeat split.
Defined.

(** ** Requests of the wire client *)







(** ** The client's base URL *)

Lemma new_client_ok_inv (conv : Result Url string) (c : LocalcertClient) :
  new_client conv = Ok c ->
  exists u, conv = Ok u /\ url_cannot_be_a_base u = false
    /\ base_url c = set_segments u (push "" (pop_if_empty (url_segments u))).
Proof.
  unfold new_client, path_segments_mut. destruct conv as [u|msg]; [|discriminate].
  destruct (url_cannot_be_a_base u) eqn:Hb; [discriminate|].
  intros E. injection E as <-. exists u. auto.
Qed.

(** X5.  A client built by [LocalcertClient::new] always has a base URL
    that can be a base, so in [localcert_request] the [join(path)] of the
    two endpoint names the client uses, "domain" and "provision", never
    fails and its [.unwrap()] never panics: such a request POSTs to the
    base with its last segment replaced by the endpoint name. *)
Theorem X5_request_never_panics (conv : Result Url string) (c : LocalcertClient) :
  new_client conv = Ok c ->
  url_cannot_be_a_base (base_url c) = false
  /\ (forall path, path = "domain" \/ path = "provision" ->
        join (base_url c) path = Some (endpoint_url c path))
  /\ (forall Req Res (HS : Serialize Req) (HD : DeserializeOwned Res) path (body : Req) w,
        path = "domain" \/ path = "provision" ->
        fst (localcert_request (Res := Res) c path body w) <> Panic).
Proof.
  intros E. destruct (new_client_ok_inv conv c E) as [u [_ [Hb Hc]]].
  assert (Hb' : url_cannot_be_a_base (base_url c) = false) by (rewrite Hc; exact Hb).
  split; [exact Hb'|]. split.
  - intros path _. unfold join, endpoint_url. rewrite Hb'. reflexivity.
  - intros Req Res HS HD path body w _. unfold localcert_request.
    unfold join. rewrite Hb'. unfold_m. simpl.
    destruct (w_http _) as [|r rest]; simpl; [discriminate|].
    unfold handle_reply. destruct r as [resp|]; [|discriminate].
    destruct (negb _); [destruct (from_body _ : option Problem)|destruct (from_body _ : option Res)];
      discriminate.
Qed.

Lemma X5_request_never_panics_witness :
  url_cannot_be_a_base (base_url example_client) = false.
Proof.
  exact (proj1 (X5_request_never_panics (Ok example_url) example_client eq_refl)).
Defined.

(** X6.  Canonicalizing the base URL is idempotent: building a client from
    the base URL of a client [new] produced gives that same client back. *)
Theorem X6_new_client_idempotent (conv : Result Url string) (c : LocalcertClient) :
  new_client conv = Ok c -> new_client (Ok (base_url c)) = Ok c.
Proof.
  intros E. destruct (new_client_ok_inv conv c E) as [u [_ [Hb Hc]]].
  destruct c as [bu]. cbn [base_url] in *. subst bu.
  unfold new_client, path_segments_mut, set_segments. cbn [url_cannot_be_a_base url_segments].
  rewrite Hb, push_pop_canonical. reflexivity.
Qed.

Lemma X6_new_client_idempotent_witness :
  new_client (Ok (set_segments example_url ["a"; ""]))
  = Ok (mkLocalcertClient (set_segments example_url ["a"; ""])).
Proof.
  exact (X6_new_client_idempotent (Ok (mkUrl "https" (Some "localcert.dev") false ["a"]))
           (mkLocalcertClient (set_segments example_url ["a"; ""])) eq_refl).
Defined.

(** ** The full authorization path *)

Lemma respond_log (w : World) (ch : Challenge) :
  respond ch w = (match w_respond w with Ok _ => Done tt | Err e => Fail (LAcmeError e) end,
                  log_event (ERespond (challenge_url ch)) w).
Proof.
  unfold respond, emit, ask, acme, bind. simpl.
  destruct (w_respond w) as [[]|e]; reflexivity.
Qed.

(** X9.  The full [OrderedState::authorize] on a Pending order: it fetches
    the order's authorization, provisions the DNS record, responds to the
    Pending DNS-01 challenge the provisioning service confirmed, then waits
    for the order to leave Pending; it yields an Authorized phase on the
    order refreshed to the first status the authority reports other than
    Pending. *)
Theorem X9_authorize_full_path (st : State) (a : Authorization) (ch : Challenge)
  (pr : ProvisionResult) (w w1 : World) (s : OrderStatus) (rest : list OrderStatus) :
  order_status (order st) = OPending ->
  w_get_authorization w (order st) = Ok a ->
  authz_status a = APending ->
  find_challenge_type a CHALLENGE_TYPE_DNS_01 = Some ch ->
  challenge_status ch = CPending ->
  provision_domain (client st) (account st) (authz_url a)
    (log_event (EGetAuthorization (order_url (order st))) w) = (Done pr, w1) ->
  provisioned_challenge_url pr = challenge_url ch ->
  w_respond w1 = Ok tt ->
  await_change OPending (w_polls w1) = Some (s, rest) ->
  s <> OPending
  /\ OrderedState_authorize (OrderedState_ st) w
     = (Done (AuthorizedState_ (set_order (mkOrder (order_url (order st)) s) st)),
        set_polls rest (log_event (ERespond (challenge_url ch)) w1)).
Proof.
  intros Hs Ha Hst Hf Hc Hp Hu Hr Hw. split; [exact (await_change_differs _ _ _ _ Hw)|].
  assert (Hz : authorize (client st) (account st) a
                 (log_event (EGetAuthorization (order_url (order st))) w)
               = (Done tt, log_event (ERespond (challenge_url ch)) w1)).
  { unfold authorize. rewrite Hst, Hf. unfold bind at 1. rewrite Hp, Hu, String.eqb_refl.
    rewrite Hc. cbn [negb]. rewrite respond_log, Hr. reflexivity. }
  unfold OrderedState_authorize, order_state. rewrite Hs.
  unfold get_only_authorization, emit, ask, acme. unfold bind at 1 2.
  rewrite get_authorization_log, Ha. unfold ret at 1. unfold bind at 1.
  rewrite Hz. unfold bind, run_mut, State_order_status_changed_from.
  rewrite Hs. simpl OrderStatus_eqb. cbv iota.
  unfold status_changed. rewrite Hs, polls_log, Hw. reflexivity.
Qed.

Lemma X9_authorize_full_path_witness :
  fst (OrderedState_authorize (OrderedState_ (example_state OPending))
         (example_world [Reply (mkHttpResponse 200
                                  (RProvisionResult
                                     (mkProvisionResult "https://acme.example/authz/2"
                                        "https://acme.example/chall/3")))]
            (example_order OPending) (example_authorization APending)
            [OPending; OPending; OReady]))
  = Done (AuthorizedState_ (example_state OReady)).
Proof.
  destruct (X9_authorize_full_path (example_state OPending)
              (example_authorization APending) example_challenge
              (mkProvisionResult "https://acme.example/authz/2" "https://acme.example/chall/3")
              (example_world [Reply (mkHttpResponse 200
                                       (RProvisionResult
                                          (mkProvisionResult "https://acme.example/authz/2"
                                             "https://acme.example/chall/3")))]
                 (example_order OPending) (example_authorization APending)
                 [OPending; OPending; OReady])
              (snd (provision_domain example_client example_account
                      "https://acme.example/authz/2"
                      (log_event (EGetAuthorization "https://acme.example/order/7")
                         (example_world [Reply (mkHttpResponse 200
                                                  (RProvisionResult
                                                     (mkProvisionResult
                                                        "https://acme.example/authz/2"
                                                        "https://acme.example/chall/3")))]
                            (example_order OPending) (example_authorization APending)
                            [OPending; OPending; OReady]))))
              OReady [] eq_refl eq_refl eq_refl eq_refl eq_refl eq_refl eq_refl eq_refl
              eq_refl) as [_ E].
  rewrite E. reflexivity.
Defined.

(** ** The unexpected-status error *)

Lemma string_app_cancel_l (p a b : string) : p ++ a = p ++ b -> a = b.
Proof.
  induction p as [|x p IH]; simpl; [exact id|].
  intros H. injection H as H. exact (IH H).
Qed.

(** X12.  The unexpected-status error identifies the status: for a given
    resource type, two different statuses never give the same error. *)
Theorem X12_unexpected_status_injective (resource_type : string) (s1 s2 : OrderStatus) :
  unexpected_status resource_type s1 = unexpected_status resource_type s2 -> s1 = s2.
Proof.
  unfold unexpected_status. intros H. injection H as H.
  apply (string_app_cancel_l resource_type) in H.
  injection H as H.
  destruct s1, s2; simpl in H; try reflexivity; discriminate.
Qed.

Lemma X12_unexpected_status_injective_witness :
  OValid = OValid.
Proof. exact (X12_unexpected_status_injective "order" OValid OValid eq_refl). Defined.

(** ** The session threaded through the phases *)

Lemma changed_from_session (from : OrderStatus) (st st' : State) (w w' : World)
  (r : outcome OrderStatus) :
  State_order_status_changed_from from st w = (r, st', w') -> session st' = session st.
Proof.
  unfold State_order_status_changed_from.
  destruct (OrderStatus_eqb (order_status (order st)) from).
  - destruct (status_changed (order st) w) as [[o'| | |] w1];
      intros E; injection E as _ <- _; reflexivity.
  - intros E. injection E as _ <- _. reflexivity.
Qed.

(** X13.  Every transition keeps the session: the phase a transition yields
    holds the same wire client, Account and polling interval as the phase
    it came from (only the order changes), for [new_order],
    [resume_order], [authorize], both finalizations, and [get_certificate]
    whatever its outcome. *)
Theorem X13_session_preserved :
  (forall r w s w', RegisteredState_new_order r w = (Done (OrderedState_ s), w') ->
     session s = (rs_client r, rs_account r, rs_acme_polling_interval r))
  /\ (forall r u w p w', RegisteredState_resume_order r u w = (Done p, w') ->
     session (resume_state p) = (rs_client r, rs_account r, rs_acme_polling_interval r))
  /\ (forall s w s' w', OrderedState_authorize (OrderedState_ s) w
                        = (Done (AuthorizedState_ s'), w') -> session s' = session s)
  /\ (forall s w k s' w', AuthorizedState_finalize_with_generated_key (AuthorizedState_ s) w
                          = (Done (k, FinalizedState_ s'), w') -> session s' = session s)
  /\ (forall s csr w s' w', AuthorizedState_finalize_with_csr (AuthorizedState_ s) csr w
                            = (Done (FinalizedState_ s'), w') -> session s' = session s)
  /\ (forall s w r s' w', FinalizedState_get_certificate (FinalizedState_ s) w
                          = (r, FinalizedState_ s', w') -> session s' = session s).
Proof.
  split; [|split; [|split; [|split; [|split]]]].
  - intros r w s w'. unfold RegisteredState_new_order. unfold bind at 1.
    destruct (get_domain (rs_client r) (rs_account r) w) as [[d| | |] w1];
      try discriminate.
    unfold new_dns_order, emit, ask, acme, bind. simpl.
    destruct (w_new_dns_order w1 (localcert_domain d));
      unfold ret, throw, RegisteredState_with_order; intros E; [injection E as <- _; reflexivity | discriminate].
  - intros r u w p w'. unfold RegisteredState_resume_order, get_order, emit, ask, acme, bind.
    simpl. destruct (w_get_order w u) as [o|e]; unfold ret, throw; [|discriminate].
    destruct (order_status o); simpl; unfold ret, panic; intros E;
      try discriminate; injection E as <- _; reflexivity.
  - intros s w s' w'. unfold OrderedState_authorize.
    destruct (order_state (order s)); unfold ret;
      try (intros E; injection E as <- _; reflexivity).
    unfold bind at 1.
    destruct (get_only_authorization (order s) w) as [[a| | |] w1]; try discriminate.
    unfold bind at 1.
    destruct (authorize (client s) (account s) a w1) as [[[]| | |] w2]; try discriminate.
    unfold bind, run_mut.
    destruct (State_order_status_changed_from OPending s w2) as [[r st'] w3] eqn:E.
    destruct r; simpl; try discriminate.
    intros H. injection H as <- _. exact (changed_from_session _ _ _ _ _ _ E).
  - intros s w k s' w'. unfold AuthorizedState_finalize_with_generated_key.
    destruct (order_state (order s)); unfold throw; try discriminate.
    unfold bind. destruct (finalize_with_generated_key (order s) w) as [[[k0 o]| | |] w1];
      try discriminate.
    unfold ret. intros E. injection E as _ <- _. reflexivity.
  - intros s csr w s' w'. unfold AuthorizedState_finalize_with_csr.
    destruct (order_state (order s)); unfold throw, ret;
      try discriminate; try (intros E; injection E as <- _; reflexivity).
    unfold bind. destruct (finalize (order s) csr w) as [[o| | |] w1]; try discriminate.
    unfold ret. intros E. injection E as <- _. reflexivity.
  - intros s w r s' w'. unfold FinalizedState_get_certificate.
    destruct (State_order_status_changed_from OProcessing s w) as [[r1 st1] w1] eqn:E.
    pose proof (changed_from_session _ _ _ _ _ _ E) as Hss.
    destruct r1; [destruct (order_state (order st1)) | | |];
      try destruct (get_certificate_chain (order st1) w1);
      intros H; injection H as _ <- _; exact Hss.
Qed.

Lemma X13_session_preserved_witness :
  session (example_state OReady) = session (example_state OPending).
Proof.
  destruct X13_session_preserved as [_ [_ [H _]]].
  apply (H (example_state OPending)
           (example_world [Reply (mkHttpResponse 200
                                    (RProvisionResult
                                       (mkProvisionResult "https://acme.example/authz/2"
                                          "https://acme.example/chall/3")))]
              (example_order OPending) (example_authorization APending)
              [OPending; OReady])
           (example_state OReady)
           (snd (OrderedState_authorize (OrderedState_ (example_state OPending))
                   (example_world [Reply (mkHttpResponse 200
                                            (RProvisionResult
                                               (mkProvisionResult
                                                  "https://acme.example/authz/2"
                                                  "https://acme.example/chall/3")))]
                      (example_order OPending) (example_authorization APending)
                      [OPending; OReady])))).
  reflexivity.
Defined.

(** ** Building a client from the configuration *)

Lemma new_client_trailing_slash (conv : Result Url string) (c : LocalcertClient) :
  new_client conv = Ok c -> exists pre, url_path (base_url c) = pre ++ "/".
Proof.
  intros E. destruct (new_client_ok_inv conv c E) as [u [_ [_ Hc]]].
  destruct (push_empty_snoc (pop_if_empty (url_segments u))) as [l Hl].
  assert (Hseg : url_segments (base_url c) = (l ++ [""])%list)
    by (rewrite Hc; exact Hl).
  rewrite (url_path_snoc _ _ _ Hseg).
  destruct l as [|a l].
  - exists "". reflexivity.
  - exists ("/" ++ String.concat "/" (a :: l)). rewrite !string_app_assoc. reflexivity.
Qed.

(** X14.  [build_with_account] builds its client from the configured server
    URL, or from DEFAULT_SERVER_URL when none was set; on success the
    Registered phase holds the given account, the configured polling
    interval and a base URL whose path ends in ['/']; its only failure is
    the invalid-base-URL error. *)
Theorem X14_build_with_account (parse : string -> Result Url string) (b : ConfigBuilder)
  (acct : Account) :
  (forall rs, build_with_account parse b acct = Ok rs ->
     rs_account rs = acct
     /\ rs_acme_polling_interval rs = cb_acme_polling_interval b
     /\ new_client (parse (match server_url b with Some u => u | None => DEFAULT_SERVER_URL end))
        = Ok (rs_client rs)
     /\ exists pre, url_path (base_url (rs_client rs)) = pre ++ "/")
  /\ (forall e, build_with_account parse b acct = Err e -> exists m, e = InvalidBaseUrl m).
Proof.
  unfold build_with_account, RegisteredState_new. split.
  - intros rs.
    destruct (new_client (parse (match server_url b with Some u => u
                                 | None => DEFAULT_SERVER_URL end))) as [c|e] eqn:E;
      [|discriminate].
    intros H. injection H as <-. cbn [rs_account rs_acme_polling_interval rs_client].
    split; [reflexivity|]. split; [reflexivity|]. split; [reflexivity|].
    exact (new_client_trailing_slash _ _ E).
  - intros e.
    destruct (parse (match server_url b with Some u => u | None => DEFAULT_SERVER_URL end))
      as [u|msg]; unfold new_client.
    + unfold path_segments_mut. destruct (url_cannot_be_a_base u); [|discriminate].
      intros H. injection H as <-. eexists. reflexivity.
    + intros H. injection H as <-. eexists. reflexivity.
Qed.

Lemma X14_build_with_account_witness :
  rs_account (mkRegisteredState example_client example_account 5) = example_account.
Proof.
  destruct (X14_build_with_account parse_localcert_dev with_http_client example_account)
    as [H _].
  exact (proj1 (H (mkRegisteredState example_client example_account 5) eq_refl)).
Defined.
